(** * Ocean Q&A front end: the conversation controller of [App.js]

    A shallow embedding of the stateful core of
    [src/ai_qna_frontend/src/App.js]: the four [useState] cells of the [App]
    component, the handlers [handleSubmit] and [toggleTheme], the stub
    [askAI], and the event loop that drives them.

    Modelling conventions.
    - A JavaScript string is the list of its UTF-16 code units.
    - The component state is a record of the four [useState] cells.  A
      handler runs against the latest committed render, so the values it
      closes over ([question], [isAsking]) are read from that record, and
      a [setX] call is applied to it in program order.
    - There are two event loops.  In [run] a render follows every event,
      so each handler reads the state the previous event left.  In
      [live_run] a render is an event of its own: a handler reads the
      state of the last render and writes to the cells as they are now,
      so an event may be handled before the component has re-rendered.
      [run] is [live_run] on the sessions with a render after each event.
    - [handleSubmit] is an async function with a single [await].  It is
      split at that point: [handleSubmit] is the part that runs when the
      form is submitted, [handleSubmit_resume] the part that runs once the
      awaited promise has settled.  The calls to [askAI] that have not
      settled yet are kept in the session next to the component state.
    - [Date.now()] and [new Date()] read the wall clock; their readings are
      inputs of the event that triggers the handler. *)

From Stdlib Require Import ZArith NArith Ascii String DecimalString DecimalZ.
From stdpp Require Import base option list sets.

Local Open Scope Z_scope.

(** ** Strings *)

(** A string value: its UTF-16 code units, in order. *)
Definition jsstring : Type := list N.

(** A string literal of the source, all of whose characters are ASCII. *)
Definition lit (s : String.string) : jsstring :=
  map N_of_ascii (list_ascii_of_string s).

(** The line feed written [\n] in the source literals. *)
Definition LF : jsstring := [10%N].

(** [ToBoolean] on a string: only the empty string is falsy. *)
Definition truthy (s : jsstring) : bool :=
  match s with
  | [] => false
  | _ :: _ => true
  end.

(** The code units removed by [String.prototype.trim]: ECMAScript
    WhiteSpace (TAB, VT, FF, ZWNBSP and the Unicode space separators) and
    LineTerminator (LF, CR, LS, PS). *)
Definition isTrimmed (c : N) : bool :=
  existsb (N.eqb c)
    [0x0009; 0x000A; 0x000B; 0x000C; 0x000D; 0x0020; 0x00A0; 0x1680;
     0x2028; 0x2029; 0x202F; 0x205F; 0x3000; 0xFEFF]%N
  || ((0x2000 <=? c)%N && (c <=? 0x200A)%N).

Fixpoint trimStart (s : jsstring) : jsstring :=
  match s with
  | [] => []
  | c :: s' => if isTrimmed c then trimStart s' else s
  end.

Definition trimEnd (s : jsstring) : jsstring :=
  rev (trimStart (rev s)).

(** [s.trim()] *)
Definition trim (s : jsstring) : jsstring :=
  trimEnd (trimStart s).

(** [`${n}`] for an integral Number [n] with [|n| < 10^21], which covers
    every time value: the decimal digits, with a leading minus sign for a
    negative number. *)
Definition Number_toString (n : Z) : jsstring :=
  lit (NilEmpty.string_of_int (Z.to_int n)).

(** ** Messages and component state *)

Inductive role : Type := user | assistant.

Module Msg.

(** One entry of the [messages] array.  [ts] is the time value behind the
    ISO string of the source; [error] is [None] where the object literal
    has no [error] property. *)
Record t : Type := mk {
  id : jsstring;
  role : role;
  content : jsstring;
  ts : Z;
  error : option bool;
}.

(** The flag as [MessageBubble] reads it ([error ? ... : ...]): an absent
    property is [undefined], which is falsy. *)
Definition is_error (m : t) : bool :=
  match error m with
  | Some b => b
  | None => false
  end.

End Msg.

(** The [useState] cells of [App]. *)
Record state : Type := mkState {
  theme : jsstring;
  question : jsstring;
  isAsking : bool;
  messages : list Msg.t;
}.

#[global] Instance role_eq_dec : EqDecision role.
Proof. solve_decision. Defined.
#[global] Instance msg_eq_dec : EqDecision Msg.t.
Proof. solve_decision. Defined.
#[global] Instance state_eq_dec : EqDecision state.
Proof. solve_decision. Defined.

(** ** Handlers as state-and-exception computations *)

(** How a piece of handler code completes: normally with a value, or
    abruptly with a thrown value. *)
Inductive completion (A : Type) : Type :=
  | Normal (a : A)
  | Throw (reason : jsstring).
Arguments Normal {A} a.
Arguments Throw {A} reason.

Definition M (A : Type) : Type := state -> completion A * state.

Definition ret {A} (a : A) : M A := fun s => (Normal a, s).

Definition bind {A B} (c : M A) (k : A -> M B) : M B :=
  fun s =>
    match c s with
    | (Normal a, s') => k a s'
    | (Throw r, s') => (Throw r, s')
    end.

Definition throw {A} (r : jsstring) : M A := fun s => (Throw r, s).

Notation "x <- c1 ;; c2" := (bind c1 (fun x => c2))
  (at level 100, c1 at next level, right associativity).
Notation "c1 ;; c2" := (bind c1 (fun _ => c2))
  (at level 100, right associativity).

(** The value of a cell in the render the handler closes over. *)
Definition read {A} (cell : state -> A) : M A := fun s => (Normal (cell s), s).

Definition setTheme (f : jsstring -> jsstring) : M unit :=
  fun s => (Normal tt, mkState (f (theme s)) (question s) (isAsking s) (messages s)).

Definition setQuestion (v : jsstring) : M unit :=
  fun s => (Normal tt, mkState (theme s) v (isAsking s) (messages s)).

Definition setIsAsking (v : bool) : M unit :=
  fun s => (Normal tt, mkState (theme s) (question s) v (messages s)).

Definition setMessages (f : list Msg.t -> list Msg.t) : M unit :=
  fun s => (Normal tt, mkState (theme s) (question s) (isAsking s) (f (messages s))).

(** [try { body } catch (err) { handler } finally { finalizer }] *)
Definition try_catch_finally
    (body : M unit) (handler : jsstring -> M unit) (finalizer : M unit) : M unit :=
  fun s =>
    let '(c1, s1) := body s in
    let '(c2, s2) :=
      match c1 with
      | Normal a => (Normal a, s1)
      | Throw r => handler r s1
      end in
    match finalizer s2 with
    | (Normal _, s3) => (c2, s3)
    | (Throw r, s3) => (Throw r, s3)
    end.

(** ** The source's constants *)

Definition light : jsstring := lit "light".

Definition welcome_id : jsstring := lit "welcome".

Definition welcome_text : jsstring :=
  lit "Hi! I'm your AI assistant. Ask me anything, and I'll do my best to help with clear, concise answers.".

Definition canned : jsstring :=
  lit "Here's a concise explanation:" ++ LF ++ LF
  ++ lit "- React hooks let you use state and lifecycle features in functional components." ++ LF
  ++ lit "- Common hooks: useState for state, useEffect for side effects, useMemo/useCallback for memoization." ++ LF
  ++ lit "- Keep hooks at the top level and never inside conditions or loops." ++ LF ++ LF
  ++ lit "Would you like a small code example?".

Definition apology : jsstring :=
  lit "Sorry, something went wrong while fetching the answer. Please try again.".

(** The arguments of [useState] at the first render; [t0] is the clock
    reading of [new Date()] there. *)
Definition initial_state (t0 : Z) : state :=
  {| theme := light;
     question := [];
     isAsking := false;
     messages :=
       [ {| Msg.id := welcome_id;
            Msg.role := assistant;
            Msg.content := welcome_text;
            Msg.ts := t0;
            Msg.error := None |} ] |}.

(** ** The answer provider *)

(** How an awaited promise settles. *)
Inductive settled : Type :=
  | Fulfilled (answer : jsstring)
  | Rejected (reason : jsstring).

#[global] Instance settled_eq_dec : EqDecision settled.
Proof. solve_decision. Defined.

(** [await p] once [p] has settled: its value, or its reason thrown. *)
Definition await (p : settled) : M jsstring :=
  match p with
  | Fulfilled answer => ret answer
  | Rejected reason => throw reason
  end.

(** [askAI]: the timer promise of [setTimeout(r, 900)] is always resolved,
    after which the function returns [canned]; [q] is not used.  The delay
    only fixes when the [Settle] event of the call can occur. *)
Definition askAI (q : jsstring) : settled := Fulfilled canned.

(** ** [handleSubmit] *)

(** From the submit event to the [await]: [None] when the handler returns
    at the guard, [Some q] when it is suspended on [askAI(q)].  [now_id] is
    the reading of [Date.now()], [now_ts] that of [new Date()].  The call
    [e?.preventDefault()] acts on the event object only and is left out. *)
Definition handleSubmit (now_id now_ts : Z) : M (option jsstring) :=
  draft <- read question ;;
  let q := trim draft in
  asking <- read isAsking ;;
  if negb (truthy q) || asking then ret None
  else
    let userMsg :=
      {| Msg.id := lit "u-" ++ Number_toString now_id;
         Msg.role := user;
         Msg.content := q;
         Msg.ts := now_ts;
         Msg.error := None |} in
    setMessages (fun prev => prev ++ [userMsg]) ;;
    setQuestion [] ;;
    setIsAsking true ;;
    ret (Some q).

(** From the settling of the awaited promise to the end of the handler. *)
Definition handleSubmit_resume (p : settled) (now_id now_ts : Z) : M unit :=
  try_catch_finally
    (answer <- await p ;;
     let aiMsg :=
       {| Msg.id := lit "a-" ++ Number_toString now_id;
          Msg.role := assistant;
          Msg.content := answer;
          Msg.ts := now_ts;
          Msg.error := None |} in
     setMessages (fun prev => prev ++ [aiMsg]))
    (fun err =>
     let errMsg :=
       {| Msg.id := lit "e-" ++ Number_toString now_id;
          Msg.role := assistant;
          Msg.content := apology;
          Msg.ts := now_ts;
          Msg.error := Some true |} in
     setMessages (fun prev => prev ++ [errMsg]))
    (setIsAsking false).

(** [toggleTheme] *)
Definition toggleTheme : M unit :=
  setTheme (fun t => if decide (t = light) then light else light).

(** [onChange] of the textarea: [setQuestion(e.target.value)] *)
Definition updateDraft (text : jsstring) : M unit :=
  setQuestion text.

(** ** The event loop *)

(** The component state together with the arguments of the calls to
    [askAI] whose promises have not settled yet, oldest first; each stands
    for one invocation of [handleSubmit] suspended at its [await]. *)
Record session : Type := mkSession {
  ui : state;
  pending : list jsstring;
}.

#[global] Instance session_eq_dec : EqDecision session.
Proof. solve_decision. Defined.

Definition initial_session (t0 : Z) : session :=
  {| ui := initial_state t0; pending := [] |}.

(** What can happen to the mounted component. *)
Inductive event : Type :=
  | Change (text : jsstring)
      (** the textarea's [onChange] *)
  | Submit (now_id now_ts : Z)
      (** the form's [onSubmit] *)
  | Settle (k : nat) (p : settled) (now_id now_ts : Z)
      (** the [k]-th outstanding promise settles as [p] *)
  | ThemeClick.
      (** the theme button's [onClick] *)

(** Which settlements an answer provider can produce for a question. *)
Definition provider : Type := jsstring -> settled -> bool.

(** The provider contract alone: any answer, or any failure. *)
Definition any_provider : provider := fun _ _ => true.

(** The provider of the source. *)
Definition stub_provider : provider := fun q p => bool_decide (p = askAI q).

(** One event; [None] when the event cannot occur (a promise that does not
    exist, or a settlement the provider cannot produce). *)
Definition dispatch (P : provider) (w : session) (e : event) : option session :=
  match e with
  | Change text =>
      Some (mkSession (updateDraft text (ui w)).2 (pending w))
  | ThemeClick =>
      Some (mkSession (toggleTheme (ui w)).2 (pending w))
  | Submit now_id now_ts =>
      match handleSubmit now_id now_ts (ui w) with
      | (Normal (Some q), s') => Some (mkSession s' (pending w ++ [q]))
      | (_, s') => Some (mkSession s' (pending w))
      end
  | Settle k p now_id now_ts =>
      match pending w !! k with
      | Some q =>
          if P q p
          then Some (mkSession (handleSubmit_resume p now_id now_ts (ui w)).2
                               (delete k (pending w)))
          else None
      | None => None
      end
  end.

(** A sequence of events, in order, each handled on the state the one
    before has left: a render follows every event. *)
Fixpoint run (P : provider) (w : session) (tr : list event) : option session :=
  match tr with
  | [] => Some w
  | e :: tr' =>
      match dispatch P w e with
      | Some w' => run P w' tr'
      | None => None
      end
  end.

(** The messages [handleSubmit] builds. *)
Definition userMsg (q : jsstring) (now_id now_ts : Z) : Msg.t :=
  Msg.mk (lit "u-" ++ Number_toString now_id) user q now_ts None.

Definition aiMsg (answer : jsstring) (now_id now_ts : Z) : Msg.t :=
  Msg.mk (lit "a-" ++ Number_toString now_id) assistant answer now_ts None.

Definition errMsg (now_id now_ts : Z) : Msg.t :=
  Msg.mk (lit "e-" ++ Number_toString now_id) assistant apology now_ts (Some true).

(** The message a settlement appends. *)
Definition reply (p : settled) (now_id now_ts : Z) : Msg.t :=
  match p with
  | Fulfilled answer => aiMsg answer now_id now_ts
  | Rejected _ => errMsg now_id now_ts
  end.

(** ** Generated ids *)

(** The prefixes of generated ids. *)
Definition id_prefixes : list jsstring := [lit "u-"; lit "a-"; lit "e-"].

(** ** Rendering *)

(** [s.split('\n')]: the pieces of [s] between line feeds; a string without
    line feed, the empty one included, is its own single piece. *)
Fixpoint split_lines (s : jsstring) : list jsstring :=
  match s with
  | [] => [[]]
  | c :: s' =>
      if (c =? 10)%N then [] :: split_lines s'
      else
        match split_lines s' with
        | line :: rest => (c :: line) :: rest
        | [] => [[c]]
        end
  end.

(** [lines.join('\n')], the inverse the properties below are stated with. *)
Fixpoint join_lines (lines : list jsstring) : jsstring :=
  match lines with
  | [] => []
  | [line] => line
  | line :: rest => line ++ LF ++ join_lines rest
  end.

(** What [MessageBubble] returns, as far as it depends on the props: the
    class of the outer [div], whether the avatar is rendered, and the text
    of the paragraphs, one per line, in order. *)
Record bubble : Type := mkBubble {
  className : jsstring;
  avatar : bool;
  paragraphs : list jsstring;
}.

(** [MessageBubble({ role, children, error })]; [children] is a string
    here, so [String(children)] is [children].  [error] is the prop as
    passed: [None] for [undefined]. *)
Definition MessageBubble (r : role) (children : jsstring) (error : option bool)
    : bubble :=
  let isUser := bool_decide (r = user) in
  {| className :=
       lit "op-msg "
       ++ (if isUser then lit "op-msg-user" else lit "op-msg-assistant")
       ++ lit " "
       ++ (if default false error then lit "op-msg-error" else []);
     avatar := negb isUser;
     paragraphs := split_lines children |}.

(** What [App] returns, as far as it depends on the state: the value of
    the textarea, the [disabled] attribute and the text of the submit
    button, the keyed list of message bubbles, and whether [TypingBubble]
    follows them. *)
Record view : Type := mkView {
  input_value : jsstring;
  button_disabled : bool;
  button_text : jsstring;
  bubbles : list (jsstring * bubble);
  typing : bool;
}.

Definition App_render (s : state) : view :=
  {| input_value := question s;
     button_disabled := negb (truthy (trim (question s))) || isAsking s;
     button_text := if isAsking s then lit "..." else lit "Enter";
     bubbles :=
       map (fun m =>
              (Msg.id m,
               MessageBubble (Msg.role m) (Msg.content m) (Msg.error m)))
           (messages s);
     typing := isAsking s |}.

(** ** Kinds of message *)

(** The four object literals of the source that become messages: the seed
    of [useState], and [userMsg], [aiMsg] and [errMsg] of [handleSubmit]. *)
Inductive message_kind (m : Msg.t) : Prop :=
  | kind_welcome :
      Msg.id m = welcome_id → Msg.role m = assistant →
      Msg.content m = welcome_text → Msg.error m = None →
      message_kind m
  | kind_user (t : Z) :
      Msg.id m = lit "u-" ++ Number_toString t → Msg.role m = user →
      Msg.content m ≠ [] → Msg.error m = None →
      message_kind m
  | kind_answer (t : Z) :
      Msg.id m = lit "a-" ++ Number_toString t → Msg.role m = assistant →
      Msg.error m = None →
      message_kind m
  | kind_apology (t : Z) :
      Msg.id m = lit "e-" ++ Number_toString t → Msg.role m = assistant →
      Msg.content m = apology → Msg.error m = Some true →
      message_kind m.

(** The number of user messages of a conversation. *)
Definition questions_asked (ms : list Msg.t) : nat :=
  length (filter (fun m => Msg.role m = user) ms).

(** ** The event loop with renders *)

(** [handleSubmit] as one render creates it: [question] and [isAsking] are
    the values [App] had in that render, [shown]; the setters act on the
    cells as they are when the handler runs.  On the state of the render
    itself this is [handleSubmit]. *)
Definition handleSubmit_of (shown : state) (now_id now_ts : Z)
    : M (option jsstring) :=
  let q := trim (question shown) in
  if negb (truthy q) || isAsking shown then ret None
  else
    let userMsg :=
      {| Msg.id := lit "u-" ++ Number_toString now_id;
         Msg.role := user;
         Msg.content := q;
         Msg.ts := now_ts;
         Msg.error := None |} in
    setMessages (fun prev => prev ++ [userMsg]) ;;
    setQuestion [] ;;
    setIsAsking true ;;
    ret (Some q).

(** The mounted component between two events: the state of its last
    render (what is on screen, and what the handlers of that render closed
    over), its cells as the setters called since have left them, and the
    arguments of the calls to [askAI] that have not settled yet. *)
Record live : Type := mkLive {
  shown : state;
  cells : state;
  calls : list jsstring;
}.

Definition live_initial (t0 : Z) : live :=
  mkLive (initial_state t0) (initial_state t0) [].

(** The component re-renders, or one of its handlers runs. *)
Inductive tick : Type :=
  | Render
  | Handle (e : event).

(** One tick.  Only [handleSubmit] reads values of the render; the other
    handlers call setters with a constant or an updater function. *)
Definition live_step (P : provider) (w : live) (t : tick) : option live :=
  match t with
  | Render => Some (mkLive (cells w) (cells w) (calls w))
  | Handle (Change text) =>
      Some (mkLive (shown w) (updateDraft text (cells w)).2 (calls w))
  | Handle ThemeClick =>
      Some (mkLive (shown w) (toggleTheme (cells w)).2 (calls w))
  | Handle (Submit now_id now_ts) =>
      match handleSubmit_of (shown w) now_id now_ts (cells w) with
      | (Normal (Some q), s') => Some (mkLive (shown w) s' (calls w ++ [q]))
      | (_, s') => Some (mkLive (shown w) s' (calls w))
      end
  | Handle (Settle k p now_id now_ts) =>
      match calls w !! k with
      | Some q =>
          if P q p
          then Some (mkLive (shown w)
                            (handleSubmit_resume p now_id now_ts (cells w)).2
                            (delete k (calls w)))
          else None
      | None => None
      end
  end.

Fixpoint live_run (P : provider) (w : live) (tr : list tick) : option live :=
  match tr with
  | [] => Some w
  | t :: tr' =>
      match live_step P w t with
      | Some w' => live_run P w' tr'
      | None => None
      end
  end.

(** A session of [run] as a session of [live_run]: a render after every
    event, starting from a rendered state. *)
Definition with_renders (tr : list event) : list tick :=
  flat_map (fun e => [Handle e; Render]) tr.


(** No two submit events are handled with the same render: there is a
    render between any two of them ([fresh] says whether the render at the
    start has handled none yet). *)
Fixpoint one_submit_per_render (fresh : bool) (tr : list tick) : bool :=
  match tr with
  | [] => true
  | Render :: tr' => one_submit_per_render true tr'
  | Handle (Submit _ _) :: tr' => fresh && one_submit_per_render false tr'
  | Handle _ :: tr' => one_submit_per_render fresh tr'
  end.

(** The prefix and the reading of [Date.now()] that make the id of the
    message a tick appends, if it appends one. *)
Definition id_stamp (w : live) (t : tick) : option (jsstring * Z) :=
  match t with
  | Handle (Submit now_id now_ts) =>
      match handleSubmit_of (shown w) now_id now_ts (cells w) with
      | (Normal (Some _), _) => Some (lit "u-", now_id)
      | _ => None
      end
  | Handle (Settle k p now_id _) =>
      match calls w !! k with
      | Some _ =>
          Some (match p with
                | Fulfilled _ => lit "a-"
                | Rejected _ => lit "e-"
                end, now_id)
      | None => None
      end
  | _ => None
  end.

(** The stamps of the messages appended along a session, oldest first. *)
Fixpoint id_stamps (P : provider) (w : live) (tr : list tick)
    : list (jsstring * Z) :=
  match tr with
  | [] => []
  | t :: tr' =>
      match live_step P w t with
      | Some w' =>
          match id_stamp w t with
          | Some st => st :: id_stamps P w' tr'
          | None => id_stamps P w' tr'
          end
      | None => []
      end
  end.

Definition stamp_id (st : jsstring * Z) : jsstring :=
  st.1 ++ Number_toString st.2.

(** ** Sample sessions *)

Definition hello : jsstring := lit "  What is a closure? ".

(** A question is typed and submitted, and the stub answers. *)
Definition one_exchange : list event :=
  [Change hello; Submit 5000 5000; Settle 0 (Fulfilled canned) 5900 5901].

(** The same, then the theme button is clicked and a second question is
    submitted, which the provider fails to answer. *)
Definition two_exchanges : list event :=
  one_exchange
  ++ [ThemeClick; Change (lit "Y"); Submit 7000 7000;
      Settle 0 (Rejected (lit "TypeError: Failed to fetch")) 7003 7003].

(** Two exchanges with the stub; the wall clock is set back by a second
    while the first answer is awaited, so that the second submission reads
    the same millisecond as the first. *)
Definition clock_set_back : list event :=
  [Change (lit "a"); Submit 5000 5000; Settle 0 (Fulfilled canned) 4900 4900;
   Change (lit "b"); Submit 5000 5000].

(** A question is typed and rendered, and the form is submitted twice
    before the component re-renders; then the two calls settle, the second
    one first. *)
Definition submitted_twice : list tick :=
  [Handle (Change hello); Render;
   Handle (Submit 5000 5000); Handle (Submit 5001 5001); Render;
   Handle (Settle 1 (Fulfilled canned) 5901 5901);
   Handle (Settle 0 (Rejected (lit "TypeError: Failed to fetch")) 5902 5902)].

(** * Properties *)

(** ** Trimming, on examples *)

Example trim_hello : trim hello = lit "What is a closure?".
Proof. reflexivity. Qed.

Example trim_blank : trim (lit "   ") = [].
Proof. reflexivity. Qed.

(** No-break space, line feed and line separator are trimmed too; inner
    spaces stay. *)
Example trim_unicode : trim [0xA0; 65; 32; 66; 10; 0x2028]%N = [65; 32; 66]%N.
Proof. reflexivity. Qed.

Example Number_toString_samples :
  Number_toString 0 = lit "0"
  ∧ Number_toString 1762113600000 = lit "1762113600000"
  ∧ Number_toString (-12) = lit "-12".
Proof. repeat split. Qed.

(** ** What each handler does to the state *)

Lemma truthy_nonempty (s : jsstring) : truthy s = true ↔ s ≠ [].
Proof. destruct s; simpl; split; congruence. Qed.

Lemma handleSubmit_accept (s : state) (now_id now_ts : Z) :
  trim (question s) ≠ [] →
  isAsking s = false →
  handleSubmit now_id now_ts s =
    (Normal (Some (trim (question s))),
     mkState (theme s) [] true
       (messages s ++ [userMsg (trim (question s)) now_id now_ts])).
Proof.
  intros Hq Ha. apply truthy_nonempty in Hq.
  unfold handleSubmit, bind, read. rewrite Hq, Ha. reflexivity.
Qed.

Lemma handleSubmit_reject (s : state) (now_id now_ts : Z) :
  trim (question s) = [] ∨ isAsking s = true →
  handleSubmit now_id now_ts s = (Normal None, s).
Proof.
  intros H. unfold handleSubmit, bind, read.
  destruct H as [-> | ->]; simpl; [reflexivity |].
  rewrite orb_true_r. reflexivity.
Qed.

(** The guard decides between the two, whatever the state. *)
Lemma handleSubmit_cases (s : state) (now_id now_ts : Z) :
  (trim (question s) ≠ [] ∧ isAsking s = false) ∨
  (trim (question s) = [] ∨ isAsking s = true).
Proof.
  destruct (trim (question s)); [right; left; reflexivity |].
  destruct (isAsking s); [right; right; reflexivity | left; split; congruence].
Qed.

Lemma handleSubmit_resume_eq (p : settled) (s : state) (now_id now_ts : Z) :
  handleSubmit_resume p now_id now_ts s =
    (Normal tt,
     mkState (theme s) (question s) false (messages s ++ [reply p now_id now_ts])).
Proof. destruct p; reflexivity. Qed.

(** ** The first render and the stub *)

(** C6. At the first render the conversation is the single welcome
    message, of role assistant; the draft is the empty string, the
    in-flight flag is false, and no call to the provider is outstanding. *)
Theorem initial_state_seeded (t0 : Z) :
  messages (initial_state t0)
    = [Msg.mk welcome_id assistant welcome_text t0 None]
  ∧ length (messages (initial_state t0)) = 1%nat
  ∧ question (initial_state t0) = []
  ∧ isAsking (initial_state t0) = false
  ∧ initial_session t0 = mkSession (initial_state t0) [].
Proof. repeat split; reflexivity. Qed.

(** C7. [askAI] settles the same way for every pair of questions:
    fulfilled with the one canned answer.  Hence the settlements that the
    stub provider can produce are that one, whatever the question. *)
Theorem askAI_constant (q1 q2 : jsstring) :
  askAI q1 = askAI q2
  ∧ askAI q1 = Fulfilled canned
  ∧ ∀ p : settled, stub_provider q1 p = bool_decide (p = Fulfilled canned).
Proof. repeat split. Qed.

(** * The event loop, for any provider *)

Section EventLoop.

Variable P : provider.

(** ** Submission *)

(** C1. When the draft trims to a non-empty text and no request is in
    flight, the submit handler completes normally, having appended exactly
    one message, of role user, whose content is the trimmed draft; the draft
    is the empty string and the in-flight flag is true.  This is the state
    in which the call to the provider is outstanding: the handler is
    suspended on it and nothing of its result has been used. *)
Theorem submit_appends_user_message
    (w : session) (now_id now_ts : Z) :
  trim (question (ui w)) ≠ [] →
  isAsking (ui w) = false →
  ∃ (m : Msg.t) (s' : state),
    handleSubmit now_id now_ts (ui w) = (Normal (Some (trim (question (ui w)))), s')
    ∧ dispatch P w (Submit now_id now_ts)
      = Some (mkSession s' (pending w ++ [trim (question (ui w))]))
    ∧ messages s' = messages (ui w) ++ [m]
    ∧ Msg.role m = user
    ∧ Msg.content m = trim (question (ui w))
    ∧ question s' = []
    ∧ isAsking s' = true.
Proof.
  intros Hq Ha.
  eexists (userMsg _ now_id now_ts), _.
  split; [apply handleSubmit_accept; assumption |].
  split.
  - simpl. rewrite handleSubmit_accept by assumption. reflexivity.
  - repeat split; reflexivity.
Qed.

(** C2. When the outstanding call of an accepted submission is fulfilled
    with an answer, the rest of the handler completes normally, having
    appended exactly one message, of role assistant, whose content is that
    answer and whose error flag is not set (so it reads as false); the
    in-flight flag is false and the call is no longer outstanding. *)
Theorem success_appends_assistant_message
    (w : session) (k : nat) (q answer : jsstring)
    (now_id now_ts : Z) :
  pending w !! k = Some q →
  P q (Fulfilled answer) = true →
  ∃ (m : Msg.t) (s' : state),
    handleSubmit_resume (Fulfilled answer) now_id now_ts (ui w) = (Normal tt, s')
    ∧ dispatch P w (Settle k (Fulfilled answer) now_id now_ts)
      = Some (mkSession s' (delete k (pending w)))
    ∧ messages s' = messages (ui w) ++ [m]
    ∧ Msg.role m = assistant
    ∧ Msg.content m = answer
    ∧ Msg.error m = None
    ∧ Msg.is_error m = false
    ∧ isAsking s' = false
    ∧ question s' = question (ui w).
Proof.
  intros Hk HP.
  eexists (aiMsg answer now_id now_ts), _.
  split; [apply handleSubmit_resume_eq |].
  split.
  - simpl. rewrite Hk, HP. reflexivity.
  - repeat split; reflexivity.
Qed.

(** C3. When the outstanding call of an accepted submission is rejected,
    whatever the reason, the rest of the handler still completes normally
    (nothing is thrown to its caller), having appended exactly one message,
    of role assistant, whose content is the fixed apology and whose error
    flag is true; the in-flight flag is false. *)
Theorem failure_appends_error_message
    (w : session) (k : nat) (q reason : jsstring)
    (now_id now_ts : Z) :
  pending w !! k = Some q →
  P q (Rejected reason) = true →
  ∃ (m : Msg.t) (s' : state),
    handleSubmit_resume (Rejected reason) now_id now_ts (ui w) = (Normal tt, s')
    ∧ dispatch P w (Settle k (Rejected reason) now_id now_ts)
      = Some (mkSession s' (delete k (pending w)))
    ∧ messages s' = messages (ui w) ++ [m]
    ∧ Msg.role m = assistant
    ∧ Msg.content m = apology
    ∧ Msg.error m = Some true
    ∧ Msg.is_error m = true
    ∧ isAsking s' = false.
Proof.
  intros Hk HP.
  eexists (errMsg now_id now_ts), _.
  split; [apply handleSubmit_resume_eq |].
  split.
  - simpl. rewrite Hk, HP. reflexivity.
  - repeat split; reflexivity.
Qed.

(** C4. When the draft trims to the empty string, or a request is in
    flight, the submit handler completes normally and leaves the whole
    state as it was: messages, draft and in-flight flag; no call to the
    provider is started. *)
Theorem submit_rejected_is_noop
    (w : session) (now_id now_ts : Z) :
  trim (question (ui w)) = [] ∨ isAsking (ui w) = true →
  handleSubmit now_id now_ts (ui w) = (Normal None, ui w)
  ∧ dispatch P w (Submit now_id now_ts) = Some w.
Proof.
  intros H. apply (handleSubmit_reject _ now_id now_ts) in H.
  split; [exact H |].
  simpl. rewrite H. destruct w; reflexivity.
Qed.

(** ** One event, case by case *)

(** What [dispatch] returns, with the handlers evaluated. *)
Lemma dispatch_inv (w w' : session) (e : event) :
  dispatch P w e = Some w' →
  match e with
  | Change text =>
      w' = mkSession
             (mkState (theme (ui w)) text (isAsking (ui w)) (messages (ui w)))
             (pending w)
  | ThemeClick =>
      w' = mkSession
             (mkState light (question (ui w)) (isAsking (ui w)) (messages (ui w)))
             (pending w)
  | Submit now_id now_ts =>
      (trim (question (ui w)) ≠ [] ∧ isAsking (ui w) = false
       ∧ w' = mkSession
                (mkState (theme (ui w)) [] true
                   (messages (ui w)
                    ++ [userMsg (trim (question (ui w))) now_id now_ts]))
                (pending w ++ [trim (question (ui w))]))
      ∨ ((trim (question (ui w)) = [] ∨ isAsking (ui w) = true) ∧ w' = w)
  | Settle k p now_id now_ts =>
      ∃ q, pending w !! k = Some q ∧ P q p = true
           ∧ w' = mkSession
                    (mkState (theme (ui w)) (question (ui w)) false
                       (messages (ui w) ++ [reply p now_id now_ts]))
                    (delete k (pending w))
  end.
Proof.
  destruct e as [text | now_id now_ts | k p now_id now_ts | ]; simpl.
  - intros [= <-]. reflexivity.
  - destruct (handleSubmit_cases (ui w) now_id now_ts) as [[Hq Ha] | Hno].
    + rewrite handleSubmit_accept by assumption. intros [= <-]. left. auto.
    + rewrite handleSubmit_reject by assumption. intros [= <-].
      right. split; [assumption | destruct w; reflexivity].
  - destruct (pending w !! k) as [q |]; [| discriminate].
    destruct (P q p) eqn:HP; [| discriminate].
    rewrite handleSubmit_resume_eq. intros [= <-]. eauto.
  - intros [= <-]. unfold toggleTheme, setTheme. simpl.
    destruct (decide (theme (ui w) = light)); reflexivity.
Qed.

(** Case analysis on [H : dispatch P w e = Some w'], in the order: draft
    edit, accepted submission, rejected submission, settlement, theme
    click. *)
Ltac dispatch_cases H e :=
  apply dispatch_inv in H;
  destruct e as [text | now_id now_ts | k p now_id now_ts | ];
  [ subst
  | destruct H as [(Hq & Ha & ->) | [Hno ->]]
  | destruct H as (q & Hk & Hp & ->)
  | subst ].

(** An event appends at most one message and touches no other. *)
Lemma dispatch_messages (w w' : session) (e : event) :
  dispatch P w e = Some w' →
  messages (ui w') = messages (ui w)
  ∨ ∃ m, messages (ui w') = messages (ui w) ++ [m].
Proof.
  intros H. dispatch_cases H e; simpl; eauto.
Qed.

(** A property kept by every event holds along every run. *)
Lemma run_invariant (I : session → Prop) :
  (∀ w e w', I w → dispatch P w e = Some w' → I w') →
  ∀ tr w w', I w → run P w tr = Some w' → I w'.
Proof.
  intros Hstep tr. induction tr as [| e tr IH]; simpl; intros w w' Hw Hrun.
  - injection Hrun as <-. exact Hw.
  - destruct (dispatch P w e) as [w1 |] eqn:Hd; [| discriminate].
    eapply IH; [| exact Hrun]. eapply Hstep; eassumption.
Qed.

(** ** The conversation only grows *)

(** C8. Along any sequence of events (draft edits, submissions, settlements
    of either kind, theme clicks), from any state, the conversation before
    is a prefix of the conversation after: every message that was there is
    still there, unchanged, at the same position, and whatever is new comes
    after it. *)
Theorem conversation_append_only
    (w w' : session) (tr : list event) :
  run P w tr = Some w' →
  messages (ui w) `prefix_of` messages (ui w')
  ∧ ∀ (i : nat) (m : Msg.t),
      messages (ui w) !! i = Some m → messages (ui w') !! i = Some m.
Proof.
  intros Hrun.
  assert (Hpre : messages (ui w) `prefix_of` messages (ui w')).
  { revert Hrun. apply (run_invariant (fun x => messages (ui w) `prefix_of` messages (ui x))).
    - intros x e x' Hx Hd. apply dispatch_messages in Hd as [-> | [m ->]].
      + exact Hx.
      + etrans; [exact Hx | apply prefix_app_r; reflexivity].
    - reflexivity. }
  split; [exact Hpre |].
  intros i m Hi. destruct Hpre as [added ->].
  apply lookup_app_l_Some. exact Hi.
Qed.

(** ** The theme *)

Lemma toggleTheme_light (s : state) :
  toggleTheme s = (Normal tt, mkState light (question s) (isAsking s) (messages s)).
Proof.
  unfold toggleTheme, setTheme. destruct (decide (theme s = light)); reflexivity.
Qed.

Lemma theme_light_step (w : session) (e : event) (w' : session) :
  theme (ui w) = light → dispatch P w e = Some w' → theme (ui w') = light.
Proof.
  intros Hw Hd. dispatch_cases Hd e; first [exact Hw | reflexivity].
Qed.

(** C10. [toggleTheme] sets the theme to ['light'] whatever it was; in
    every state reached from the first render the theme is ['light'], so
    there a click on the theme button, or any number of them, leaves the
    whole state as it is. *)
Theorem theme_always_light
    (t0 : Z) (tr : list event) (w : session) :
  run P (initial_session t0) tr = Some w →
  (∀ s : state, theme (toggleTheme s).2 = light)
  ∧ theme (ui w) = light
  ∧ toggleTheme (ui w) = (Normal tt, ui w)
  ∧ ∀ n : nat, run P w (replicate n ThemeClick) = Some w.
Proof.
  intros Hrun.
  assert (Hl : theme (ui w) = light).
  { revert Hrun. apply (run_invariant (fun x => theme (ui x) = light)).
    - apply theme_light_step.
    - reflexivity. }
  assert (Hid : toggleTheme (ui w) = (Normal tt, ui w)).
  { rewrite toggleTheme_light, <- Hl. destruct (ui w); reflexivity. }
  split; [intros s; rewrite toggleTheme_light; reflexivity |].
  split; [exact Hl |].
  split; [exact Hid |].
  intros n. induction n as [| n IH]; [reflexivity |].
  cbn [replicate run dispatch]. rewrite Hid. destruct w; exact IH.
Qed.

(** ** Message contents *)

Lemma contents_nonempty_step :
  (∀ q a, P q (Fulfilled a) = true → a ≠ []) →
  ∀ w e w',
    Forall (fun m => Msg.content m ≠ []) (messages (ui w)) →
    dispatch P w e = Some w' →
    Forall (fun m => Msg.content m ≠ []) (messages (ui w')).
Proof.
  intros HP w e w' Hw Hd.
  dispatch_cases Hd e; try exact Hw;
    simpl; apply Forall_app; (split; [exact Hw |]);
    (constructor; [| constructor]).
  - exact Hq.
  - destruct p as [a | r]; simpl; [exact (HP q a Hp) | discriminate].
Qed.

(** C9. In every state reached from the first render, every message of
    the conversation has a non-empty content, with any provider whose
    answers are those of [askAI] (the source's provider is one; it may also
    fail): the contents are the welcome text, trimmed drafts that passed
    the guard, the canned answer and the apology. *)
Theorem contents_nonempty
    (t0 : Z) (tr : list event) (w : session) :
  (∀ q a, P q (Fulfilled a) = true → askAI q = Fulfilled a) →
  run P (initial_session t0) tr = Some w →
  Forall (fun m => Msg.content m ≠ []) (messages (ui w))
  ∧ welcome_text ≠ [] ∧ canned ≠ [] ∧ apology ≠ [].
Proof.
  intros HP Hrun.
  split; [| repeat split; discriminate].
  revert Hrun.
  apply (run_invariant
           (fun x => Forall (fun m => Msg.content m ≠ []) (messages (ui x)))).
  - apply contents_nonempty_step.
    intros q a Hp. apply HP in Hp. injection Hp as <-. discriminate.
  - simpl. constructor; [discriminate | constructor].
Qed.

(** ** Message ids *)

Lemma lit_inj (a b : String.string) : lit a = lit b → a = b.
Proof.
  revert b. induction a as [| c a IH]; intros [| d b]; try discriminate.
  - reflexivity.
  - unfold lit. simpl. intros [= Hc Hs]. f_equal.
    + rewrite <- (ascii_N_embedding c), <- (ascii_N_embedding d), Hc. reflexivity.
    + apply IH. exact Hs.
Qed.

Lemma Number_toString_inj (a b : Z) :
  Number_toString a = Number_toString b → a = b.
Proof.
  intros H. apply lit_inj in H.
  apply DecimalZ.to_int_inj.
  assert (Hs : Some (Z.to_int a) = Some (Z.to_int b)).
  { rewrite <- !NilEmpty.isi, H. reflexivity. }
  injection Hs as Hs. exact Hs.
Qed.

Lemma id_prefix_length (pre : jsstring) :
  pre ∈ id_prefixes → length pre = 2%nat.
Proof.
  unfold id_prefixes. rewrite !elem_of_cons, elem_of_nil.
  intros [-> | [-> | [-> | []]]]; reflexivity.
Qed.

(** Two generated ids are equal only if they carry the same reading. *)
Lemma generated_id_inj (pre pre' : jsstring) (t t' : Z) :
  pre ∈ id_prefixes → pre' ∈ id_prefixes →
  pre ++ Number_toString t = pre' ++ Number_toString t' → t = t'.
Proof.
  intros Hp Hp' H.
  apply app_inj_1 in H as [_ H];
    [| rewrite !id_prefix_length by assumption; reflexivity].
  apply Number_toString_inj. exact H.
Qed.

Lemma generated_id_not_welcome (pre rest : jsstring) :
  pre ∈ id_prefixes → pre ++ rest ≠ welcome_id.
Proof.
  unfold id_prefixes. rewrite !elem_of_cons, elem_of_nil.
  intros [-> | [-> | [-> | []]]]; discriminate.
Qed.

End EventLoop.

(** ** Sample sessions, evaluated *)

(** C5 at a failing input.  The claim says that the ids of any two
    messages of a session differ.  With the stub as provider, when the
    clock is set back so that the second submission reads the millisecond
    of the first, the code gives the two user messages (at positions 1 and
    3 of the conversation) the same id, [u-5000]. *)
Lemma clock_set_back_repeats_id :
  ∃ (w : session) (m1 m2 : Msg.t),
    run stub_provider (initial_session 0) clock_set_back = Some w
    ∧ messages (ui w) !! 1%nat = Some m1
    ∧ messages (ui w) !! 3%nat = Some m2
    ∧ Msg.id m1 = lit "u-5000"
    ∧ Msg.id m2 = lit "u-5000"
    ∧ ¬ NoDup (map Msg.id (messages (ui w))).
Proof.
  do 3 eexists.
  split; [vm_compute; reflexivity |].
  split; [reflexivity |]. split; [reflexivity |].
  split; [reflexivity |]. split; [reflexivity |].
  intros H. apply NoDup_cons in H as [_ H]. apply NoDup_cons in H as [H _].
  apply H. right. left.
Qed.

Lemma submit_appends_user_message_witness :
  ∃ (m : Msg.t) (s' : state),
    handleSubmit 5000 5001 (mkState light hello false [])
      = (Normal (Some (lit "What is a closure?")), s')
    ∧ dispatch stub_provider (mkSession (mkState light hello false []) [])
               (Submit 5000 5001)
      = Some (mkSession s' [lit "What is a closure?"])
    ∧ messages s' = [m]
    ∧ Msg.role m = user
    ∧ Msg.content m = lit "What is a closure?"
    ∧ question s' = []
    ∧ isAsking s' = true.
Proof.
  apply (submit_appends_user_message stub_provider
           (mkSession (mkState light hello false []) []) 5000 5001).
  - vm_compute. discriminate.
  - reflexivity.
Defined.

Lemma success_appends_assistant_message_witness :
  ∃ (m : Msg.t) (s' : state),
    handleSubmit_resume (Fulfilled canned) 5900 5901 (mkState light [] true [])
      = (Normal tt, s')
    ∧ dispatch stub_provider (mkSession (mkState light [] true []) [lit "Q"])
               (Settle 0 (Fulfilled canned) 5900 5901)
      = Some (mkSession s' [])
    ∧ messages s' = [m]
    ∧ Msg.role m = assistant
    ∧ Msg.content m = canned
    ∧ Msg.error m = None
    ∧ Msg.is_error m = false
    ∧ isAsking s' = false
    ∧ question s' = [].
Proof.
  apply (success_appends_assistant_message stub_provider
           (mkSession (mkState light [] true []) [lit "Q"])
           0 (lit "Q") canned 5900 5901).
  - reflexivity.
  - vm_compute. reflexivity.
Defined.

Lemma failure_appends_error_message_witness :
  ∃ (m : Msg.t) (s' : state),
    handleSubmit_resume (Rejected (lit "boom")) 7003 7004 (mkState light [] true [])
      = (Normal tt, s')
    ∧ dispatch any_provider (mkSession (mkState light [] true []) [lit "Y"])
               (Settle 0 (Rejected (lit "boom")) 7003 7004)
      = Some (mkSession s' [])
    ∧ messages s' = [m]
    ∧ Msg.role m = assistant
    ∧ Msg.content m = apology
    ∧ Msg.error m = Some true
    ∧ Msg.is_error m = true
    ∧ isAsking s' = false.
Proof.
  apply (failure_appends_error_message any_provider
           (mkSession (mkState light [] true []) [lit "Y"])
           0 (lit "Y") (lit "boom") 7003 7004).
  - reflexivity.
  - reflexivity.
Defined.

Lemma submit_rejected_is_noop_witness :
  handleSubmit 1 2 (mkState light (lit "   ") false [])
    = (Normal None, mkState light (lit "   ") false [])
  ∧ dispatch stub_provider (mkSession (mkState light (lit "   ") false []) [])
             (Submit 1 2)
    = Some (mkSession (mkState light (lit "   ") false []) []).
Proof.
  apply (submit_rejected_is_noop stub_provider
           (mkSession (mkState light (lit "   ") false []) []) 1 2).
  left. vm_compute. reflexivity.
Defined.

Lemma conversation_append_only_witness :
  ∃ w' : session,
    run any_provider (initial_session 0) two_exchanges = Some w'
    ∧ messages (initial_state 0) `prefix_of` messages (ui w')
    ∧ ∀ (i : nat) (m : Msg.t),
        messages (initial_state 0) !! i = Some m → messages (ui w') !! i = Some m.
Proof.
  eexists. split; [vm_compute; reflexivity |].
  apply (conversation_append_only any_provider (initial_session 0) _ two_exchanges).
  vm_compute. reflexivity.
Defined.

Lemma contents_nonempty_witness :
  ∃ w : session,
    run stub_provider (initial_session 0) one_exchange = Some w
    ∧ length (messages (ui w)) = 3%nat
    ∧ Forall (fun m => Msg.content m ≠ []) (messages (ui w)).
Proof.
  eexists. split; [vm_compute; reflexivity |].
  split; [reflexivity |].
  apply (contents_nonempty stub_provider 0 one_exchange).
  - intros q a Hp. apply bool_decide_eq_true in Hp. symmetry. exact Hp.
  - vm_compute. reflexivity.
Defined.

Lemma theme_always_light_witness :
  ∃ w : session,
    run any_provider (initial_session 0) two_exchanges = Some w
    ∧ theme (ui w) = light
    ∧ run any_provider w (replicate 3 ThemeClick) = Some w.
Proof.
  eexists. split; [vm_compute; reflexivity |].
  split.
  - apply (theme_always_light any_provider 0 two_exchanges). vm_compute. reflexivity.
  - apply (theme_always_light any_provider 0 two_exchanges). vm_compute. reflexivity.
Defined.

(** * Further properties of [App.js] *)

(** ** Trimming *)

Lemma trimStart_split (s : jsstring) :
  ∃ lead,
    s = lead ++ trimStart s
    ∧ Forall (fun c => isTrimmed c = true) lead.
Proof.
  induction s as [| c s (lead & Hs & Hlead)]; simpl.
  - exists []. split; [reflexivity | constructor].
  - destruct (isTrimmed c) eqn:Hc.
    + exists (c :: lead). split; [simpl; f_equal; exact Hs |].
      constructor; assumption.
    + exists []. split; [reflexivity | constructor].
Qed.

Lemma trimStart_head (s : jsstring) (c : N) :
  head (trimStart s) = Some c → isTrimmed c = false.
Proof.
  induction s as [| d s IH]; simpl; [discriminate |].
  destruct (isTrimmed d) eqn:Hd; [exact IH |].
  simpl. intros [= <-]. exact Hd.
Qed.

Lemma trimStart_nil (s : jsstring) :
  trimStart s = [] ↔ forallb isTrimmed s = true.
Proof.
  induction s as [| c s IH]; simpl; [tauto |].
  destruct (isTrimmed c); simpl; [exact IH |].
  split; discriminate.
Qed.

(** Nothing is removed from a string that does not start with a trimmed
    code unit. *)
Lemma trimStart_id (s : jsstring) :
  (∀ c, head s = Some c → isTrimmed c = false) → trimStart s = s.
Proof.
  destruct s as [| c s]; simpl; [reflexivity |].
  intros H. rewrite (H c eq_refl). reflexivity.
Qed.

Lemma trimEnd_split (s : jsstring) :
  ∃ trail,
    s = trimEnd s ++ trail
    ∧ Forall (fun c => isTrimmed c = true) trail.
Proof.
  destruct (trimStart_split (rev s)) as (lead & Hs & Hlead).
  exists (rev lead). split.
  - unfold trimEnd. rewrite <- rev_app_distr, <- Hs, rev_involutive. reflexivity.
  - apply Forall_rev. exact Hlead.
Qed.

Lemma trimEnd_last (s : jsstring) (c : N) :
  last (trimEnd s) = Some c → isTrimmed c = false.
Proof.
  unfold trimEnd. intros H. apply (trimStart_head (rev s)).
  destruct (trimStart (rev s)) as [| d r]; [discriminate |].
  simpl in H. rewrite last_snoc in H. exact H.
Qed.

(** Trimming the end keeps the first code unit of what is left. *)
Lemma trimEnd_head (s : jsstring) (c : N) :
  head (trimEnd s) = Some c → head s = Some c.
Proof.
  destruct (trimEnd_split s) as (trail & Hs & _).
  intros H. rewrite Hs.
  destruct (trimEnd s); [discriminate | exact H].
Qed.

Lemma forallb_rev_true (f : N → bool) (s : jsstring) :
  forallb f (rev s) = true ↔ forallb f s = true.
Proof.
  rewrite !forallb_forall. split; intros H x Hx; apply H.
  - apply in_rev in Hx. exact Hx.
  - apply in_rev. exact Hx.
Qed.

(** A draft trims to the empty string exactly when it is made of trimmed
    code units only (the empty draft included). *)
Lemma trim_nil (s : jsstring) :
  trim s = [] ↔ forallb isTrimmed s = true.
Proof.
  unfold trim, trimEnd. rewrite <- trimStart_nil. split.
  - intros H. apply (f_equal (@rev N)) in H.
    rewrite rev_involutive in H. simpl in H.
    apply trimStart_nil in H. apply (proj1 (forallb_rev_true _ _)) in H.
    destruct (trimStart s) as [| c r] eqn:Hs; [reflexivity |].
    simpl in H. apply andb_true_iff in H as [Hc _].
    rewrite (trimStart_head s c) in Hc; [discriminate | rewrite Hs; reflexivity].
  - intros ->. reflexivity.
Qed.

Lemma trim_split (s : jsstring) :
  ∃ lead trail,
    s = lead ++ trim s ++ trail
    ∧ Forall (fun c => isTrimmed c = true) lead
    ∧ Forall (fun c => isTrimmed c = true) trail.
Proof.
  destruct (trimStart_split s) as (lead & Hs & Hlead).
  destruct (trimEnd_split (trimStart s)) as (trail & Ht & Htrail).
  exists lead, trail. unfold trim.
  rewrite <- Ht. auto.
Qed.

Lemma trim_ends (s : jsstring) (c : N) :
  head (trim s) = Some c ∨ last (trim s) = Some c → isTrimmed c = false.
Proof.
  unfold trim. intros [H | H].
  - apply (trimStart_head s). apply trimEnd_head. exact H.
  - apply (trimEnd_last (trimStart s)). exact H.
Qed.

Lemma trim_idempotent (s : jsstring) : trim (trim s) = trim s.
Proof.
  pose proof (trim_ends s) as Hends.
  remember (trim s) as t eqn:Ht. clear Ht. unfold trim.
  rewrite trimStart_id by (intros c Hc; apply Hends; left; exact Hc).
  unfold trimEnd.
  destruct t as [| d t] using rev_ind; [reflexivity |].
  rewrite rev_app_distr. simpl.
  rewrite (Hends d) by (right; apply last_snoc).
  simpl. rewrite rev_involutive. reflexivity.
Qed.

(** ** The guard of [handleSubmit] in terms of the draft *)

(** X1. [handleSubmit] ignores the submission exactly when the draft is
    made of white space and line terminators only (the empty draft
    included) or a request is in flight; in every other state it appends
    the user message, empties the draft and sets the in-flight flag. *)
Theorem handleSubmit_by_draft (s : state) (now_id now_ts : Z) :
  handleSubmit now_id now_ts s
  = if forallb isTrimmed (question s) || isAsking s
    then (Normal None, s)
    else (Normal (Some (trim (question s))),
          mkState (theme s) [] true
            (messages s ++ [userMsg (trim (question s)) now_id now_ts])).
Proof.
  destruct (forallb isTrimmed (question s)) eqn:Hblank; simpl.
  - apply handleSubmit_reject. left. apply trim_nil. exact Hblank.
  - destruct (isAsking s) eqn:Ha.
    + apply handleSubmit_reject. right. exact Ha.
    + apply handleSubmit_accept; [| exact Ha].
      intros Hq. apply trim_nil in Hq. congruence.
Qed.

(** X2. The content of the user message that an accepted submission
    appends is the draft without its leading and trailing white space and
    nothing else changed: the draft is that content between two runs of
    trimmed code units, the content neither starts nor ends with one, and
    trimming it again gives it back. *)
Theorem user_content_is_trimmed_draft
    (s s' : state) (q : jsstring) (now_id now_ts : Z) :
  handleSubmit now_id now_ts s = (Normal (Some q), s') →
  ∃ (m : Msg.t) (lead trail : jsstring),
    last (messages s') = Some m
    ∧ Msg.content m = q
    ∧ question s = lead ++ q ++ trail
    ∧ Forall (fun c => isTrimmed c = true) lead
    ∧ Forall (fun c => isTrimmed c = true) trail
    ∧ (∀ c, head q = Some c → isTrimmed c = false)
    ∧ (∀ c, last q = Some c → isTrimmed c = false)
    ∧ trim q = q.
Proof.
  intros H.
  destruct (handleSubmit_cases s now_id now_ts) as [[Hq Ha] | Hno].
  - rewrite handleSubmit_accept in H by assumption.
    injection H as <- <-.
    destruct (trim_split (question s)) as (lead & trail & Hs & Hlead & Htrail).
    exists (userMsg (trim (question s)) now_id now_ts), lead, trail.
    split; [apply last_snoc |]. split; [reflexivity |].
    split; [exact Hs |]. split; [exact Hlead |]. split; [exact Htrail |].
    split; [intros c Hc; apply (trim_ends (question s)); left; exact Hc |].
    split; [intros c Hc; apply (trim_ends (question s)); right; exact Hc |].
    apply trim_idempotent.
  - rewrite handleSubmit_reject in H by assumption. discriminate.
Qed.

(** ** More on the event loop *)

(** Case analysis on [H : dispatch P w e = Some w'], in the order: draft
    edit, accepted submission, rejected submission, settlement, theme
    click. *)
Ltac event_cases H e :=
  apply dispatch_inv in H;
  destruct e as [text | now_id now_ts | k p now_id now_ts | ];
  [ subst
  | destruct H as [(Hq & Ha & ->) | [Hno ->]]
  | destruct H as (q & Hk & Hp & ->)
  | subst ].

Section Sessions.

Variable P : provider.

Lemma dispatch_Submit_accept (w : session) (now_id now_ts : Z) :
  trim (question (ui w)) ≠ [] → isAsking (ui w) = false →
  dispatch P w (Submit now_id now_ts)
  = Some (mkSession
            (mkState (theme (ui w)) [] true
               (messages (ui w)
                ++ [userMsg (trim (question (ui w))) now_id now_ts]))
            (pending w ++ [trim (question (ui w))])).
Proof.
  intros Hq Ha. simpl. rewrite handleSubmit_accept by assumption. reflexivity.
Qed.

Lemma dispatch_Submit_reject (w : session) (now_id now_ts : Z) :
  trim (question (ui w)) = [] ∨ isAsking (ui w) = true →
  dispatch P w (Submit now_id now_ts) = Some w.
Proof.
  intros H. simpl. rewrite handleSubmit_reject by assumption.
  destruct w; reflexivity.
Qed.

Lemma run_snoc (w : session) (tr : list event) (e : event) :
  run P w (tr ++ [e]) = run P w tr ≫= fun w1 => dispatch P w1 e.
Proof.
  revert w. induction tr as [| e' tr IH]; simpl; intros w.
  - destruct (dispatch P w e); reflexivity.
  - destruct (dispatch P w e'); [apply IH | reflexivity].
Qed.

(** Draft edits one after the other: the last one stays. *)
Lemma run_Changes (w : session) (texts : list jsstring) :
  run P w (map Change texts)
  = Some (mkSession
            (mkState (theme (ui w)) (default (question (ui w)) (last texts))
               (isAsking (ui w)) (messages (ui w)))
            (pending w)).
Proof.
  revert w. induction texts as [| text texts IH]; intros w.
  - destruct w as [[] ?]. reflexivity.
  - cbn [map run dispatch]. rewrite IH. simpl.
    rewrite last_cons. destruct (last texts); reflexivity.
Qed.

(** X5. A whole exchange.  From a state with a draft that does not trim to
    the empty string, no request in flight and no call outstanding: a
    submission, any draft edits while the answer is awaited, then the
    settlement of the call.  The conversation has gained the user message
    and, right after it, the reply; the flag is false again, no call is
    outstanding, and the draft is the last edit (empty if there was
    none). *)
Theorem exchange_end_to_end
    (w : session) (texts : list jsstring) (p : settled)
    (now_id now_ts now_id' now_ts' : Z) :
  trim (question (ui w)) ≠ [] →
  isAsking (ui w) = false →
  pending w = [] →
  P (trim (question (ui w))) p = true →
  run P w (Submit now_id now_ts :: map Change texts
           ++ [Settle 0 p now_id' now_ts'])
  = Some (mkSession
            (mkState (theme (ui w)) (default [] (last texts)) false
               (messages (ui w)
                ++ [userMsg (trim (question (ui w))) now_id now_ts;
                    reply p now_id' now_ts']))
            []).
Proof.
  intros Hq Ha Hpend Hp.
  cbn [run]. rewrite dispatch_Submit_accept by assumption.
  rewrite run_snoc, run_Changes. rewrite Hpend. simpl.
  rewrite Hp, handleSubmit_resume_eq. simpl.
  rewrite <- (assoc_L (++)). reflexivity.
Qed.

(** X6. After a submission the draft has to be typed again: from a state
    with no request in flight, a submission, a settlement and a second
    submission leave the same state as the first two alone. *)
Theorem resubmit_needs_typing
    (w : session) (k : nat) (p : settled)
    (now_id now_ts now_id' now_ts' now_id'' now_ts'' : Z) :
  isAsking (ui w) = false →
  run P w [Submit now_id now_ts; Settle k p now_id' now_ts';
           Submit now_id'' now_ts'']
  = run P w [Submit now_id now_ts; Settle k p now_id' now_ts'].
Proof.
  intros Ha. cbn [run].
  destruct (dispatch P w (Submit now_id now_ts)) as [w1 |] eqn:H1;
    [| reflexivity].
  destruct (dispatch P w1 (Settle k p now_id' now_ts')) as [w2 |] eqn:H2;
    [| reflexivity].
  rewrite dispatch_Submit_reject; [reflexivity |].
  left. apply dispatch_inv in H1, H2.
  destruct H2 as (q & _ & _ & ->). simpl.
  destruct H1 as [(_ & _ & ->) | [[Hq | Hb] ->]];
    [reflexivity | exact Hq | congruence].
Qed.

Lemma questions_asked_snoc (ms : list Msg.t) (m : Msg.t) :
  questions_asked (ms ++ [m])
  = (questions_asked ms + if decide (Msg.role m = user) then 1 else 0)%nat.
Proof.
  unfold questions_asked. rewrite filter_app, length_app.
  rewrite filter_cons, filter_nil.
  destruct (decide (Msg.role m = user)); reflexivity.
Qed.

Lemma message_kind_step (w : session) (e : event) (w' : session) :
  Forall message_kind (messages (ui w)) →
  dispatch P w e = Some w' →
  Forall message_kind (messages (ui w')).
Proof.
  intros Hw Hd.
  event_cases Hd e; try exact Hw;
    simpl; apply Forall_app; (split; [exact Hw |]);
    (constructor; [| constructor]).
  - apply (kind_user _ now_id); [reflexivity | reflexivity | exact Hq | reflexivity].
  - destruct p as [a | r].
    + apply (kind_answer _ now_id); reflexivity.
    + apply (kind_apology _ now_id); reflexivity.
Qed.

(** X8. In every state reached from the first render, whatever the
    provider does, each message of the conversation is of one of four
    kinds: the welcome message; a user message, with an id in [u-], a
    non-empty content and no error flag; an answer, with an id in [a-],
    role assistant and no error flag; or an apology, with an id in [e-],
    role assistant, the fixed apology as content and the error flag
    true. *)
Theorem messages_are_of_four_kinds
    (t0 : Z) (tr : list event) (w : session) :
  run P (initial_session t0) tr = Some w →
  Forall message_kind (messages (ui w)).
Proof.
  apply (run_invariant P (fun x => Forall message_kind (messages (ui x))));
    [apply message_kind_step |].
  constructor; [| constructor]. apply kind_welcome; reflexivity.
Qed.

Lemma reachable_message_kind (t0 : Z) (tr : list event) (w : session) (m : Msg.t) :
  run P (initial_session t0) tr = Some w →
  m ∈ messages (ui w) → message_kind m.
Proof.
  intros Hrun Hm.
  assert (H : Forall message_kind (messages (ui w))).
  { revert Hrun.
    apply (run_invariant P (fun x => Forall message_kind (messages (ui x))));
      [apply message_kind_step |].
    constructor; [| constructor]. apply kind_welcome; reflexivity. }
  rewrite Forall_forall in H. apply H. exact Hm.
Qed.

Lemma prefix_of_generated (pre pre' rest : jsstring) :
  length pre = length pre' →
  pre `prefix_of` pre' ++ rest ↔ pre = pre'.
Proof.
  intros Hlen. split.
  - intros [k Hk]. apply app_inj_1 in Hk as [Hk _]; [| symmetry; exact Hlen].
    symmetry. exact Hk.
  - intros ->. apply prefix_app_r. reflexivity.
Qed.

(** X9. In every state reached from the first render, the id of a message
    tells its role and its error flag: the message is a user message
    exactly when its id starts with [u-], and it has the error flag
    exactly when its id starts with [e-], in which case it is an assistant
    message with the fixed apology as content. *)
Theorem id_tells_role_and_error
    (t0 : Z) (tr : list event) (w : session) (m : Msg.t) :
  run P (initial_session t0) tr = Some w →
  m ∈ messages (ui w) →
  (Msg.role m = user ↔ lit "u-" `prefix_of` Msg.id m)
  ∧ (Msg.is_error m = true ↔ lit "e-" `prefix_of` Msg.id m)
  ∧ (Msg.is_error m = true →
     Msg.role m = assistant ∧ Msg.content m = apology).
Proof.
  intros Hrun Hm. unfold Msg.is_error.
  destruct (reachable_message_kind t0 tr w m Hrun Hm)
    as [Hid Hr Hc He | t Hid Hr Hc He | t Hid Hr He | t Hid Hr Hc He];
    rewrite Hid, Hr, He.
  - repeat split; try discriminate; intros [k Hk]; discriminate.
  - rewrite !prefix_of_generated by reflexivity.
    repeat split; try discriminate; reflexivity.
  - rewrite !prefix_of_generated by reflexivity.
    repeat split; discriminate.
  - rewrite !prefix_of_generated by reflexivity.
    repeat split; try discriminate; try reflexivity; exact Hc.
Qed.

(** X16. The welcome message stays first: in every state reached from the
    first render, the first message of the conversation is the seeded
    one, with the time of that render. *)
Theorem welcome_stays_first
    (t0 : Z) (tr : list event) (w : session) :
  run P (initial_session t0) tr = Some w →
  head (messages (ui w))
  = Some (Msg.mk welcome_id assistant welcome_text t0 None).
Proof.
  apply (run_invariant P
           (fun x => head (messages (ui x))
                     = Some (Msg.mk welcome_id assistant welcome_text t0 None)));
    [| reflexivity].
  intros x e x' Hx Hd. apply dispatch_messages in Hd as [-> | [m ->]].
  - exact Hx.
  - destruct (messages (ui x)); [discriminate | exact Hx].
Qed.

(** X14. In every state reached from the first render, the typing bubble
    is rendered exactly when the last message of the conversation is a
    user message: the question that has no reply yet. *)
Theorem typing_iff_question_unanswered
    (t0 : Z) (tr : list event) (w : session) :
  run P (initial_session t0) tr = Some w →
  ∃ m, last (messages (ui w)) = Some m
       ∧ (typing (App_render (ui w)) = true ↔ Msg.role m = user).
Proof.
  apply (run_invariant P
           (fun x => ∃ m, last (messages (ui x)) = Some m
                          ∧ (typing (App_render (ui x)) = true
                             ↔ Msg.role m = user))).
  - intros x e x' (m & Hlast & Hiff) Hd. simpl in Hiff |- *.
    event_cases Hd e; simpl; try (exists m; split; assumption).
    + eexists. split; [apply last_snoc |]. simpl. tauto.
    + eexists. split; [apply last_snoc |].
      destruct p; simpl; split; discriminate.
  - eexists. split; [reflexivity |]. simpl. split; discriminate.
Qed.

End Sessions.

(** ** The shipped provider *)

(** X10. With [askAI] as it is, the [catch] branch of [handleSubmit] never
    runs: in every state reached from the first render no message has the
    error flag, and every assistant message is the welcome text or the
    canned answer. *)
Theorem stub_never_apologises (t0 : Z) (tr : list event) (w : session) :
  run stub_provider (initial_session t0) tr = Some w →
  Forall (fun m => Msg.error m = None
                   ∧ (Msg.role m = assistant →
                      Msg.content m = welcome_text ∨ Msg.content m = canned))
         (messages (ui w)).
Proof.
  apply (run_invariant stub_provider
           (fun x => Forall (fun m => Msg.error m = None
                                      ∧ (Msg.role m = assistant →
                                         Msg.content m = welcome_text
                                         ∨ Msg.content m = canned))
                            (messages (ui x)))).
  - intros x e x' Hx Hd.
    event_cases Hd e; try exact Hx;
      simpl; apply Forall_app; (split; [exact Hx |]);
      (constructor; [| constructor]).
    + split; [reflexivity | discriminate].
    + apply bool_decide_eq_true in Hp. subst p. simpl. auto.
  - constructor; [| constructor]. simpl. auto.
Qed.

(** ** Rendering *)

Lemma split_lines_cons (c : N) (s : jsstring) :
  c ≠ 10%N →
  ∃ line rest, split_lines s = line :: rest
               ∧ split_lines (c :: s) = (c :: line) :: rest.
Proof.
  intros Hc. simpl. apply N.eqb_neq in Hc. rewrite Hc.
  destruct s as [| d s]; simpl; [eauto |].
  destruct (d =? 10)%N; [eauto |].
  destruct (split_lines s); eauto.
Qed.

Lemma join_lines_cons (c : N) (line : jsstring) (rest : list jsstring) :
  join_lines ((c :: line) :: rest) = c :: join_lines (line :: rest).
Proof. destruct rest; reflexivity. Qed.

Lemma split_lines_LF (s : jsstring) :
  split_lines (10%N :: s) = [] :: split_lines s.
Proof. reflexivity. Qed.

Lemma split_lines_not_nil (s : jsstring) : split_lines s ≠ [].
Proof.
  destruct s as [| c s]; [discriminate |].
  destruct (decide (c = 10%N)) as [-> | Hc]; [discriminate |].
  destruct (split_lines_cons c s Hc) as (line & rest & _ & ->). discriminate.
Qed.

Lemma join_split_lines (s : jsstring) : join_lines (split_lines s) = s.
Proof.
  induction s as [| c s IH]; [reflexivity |].
  destruct (decide (c = 10%N)) as [-> | Hc].
  - rewrite split_lines_LF.
    pose proof (split_lines_not_nil s) as Hne.
    destruct (split_lines s) as [| line rest]; [congruence |].
    change (join_lines ([] :: line :: rest))
      with (10%N :: join_lines (line :: rest)).
    rewrite IH. reflexivity.
  - destruct (split_lines_cons c s Hc) as (line & rest & Hs & ->).
    rewrite join_lines_cons, <- Hs, IH. reflexivity.
Qed.

Lemma length_split_lines (s : list N) :
  length (split_lines s) = S (length (filter (fun c => c = 10%N) s)).
Proof.
  induction s as [| c s IH]; [reflexivity |].
  rewrite filter_cons.
  destruct (decide (c = 10%N)) as [-> | Hc].
  - rewrite split_lines_LF. simpl. rewrite IH. reflexivity.
  - destruct (split_lines_cons c s Hc) as (line & rest & Hs & ->).
    rewrite <- IH, Hs. reflexivity.
Qed.

Lemma split_lines_no_LF (s : jsstring) :
  Forall (fun line => 10%N ∉ line) (split_lines s).
Proof.
  induction s as [| c s IH].
  - constructor; [apply not_elem_of_nil | constructor].
  - destruct (decide (c = 10%N)) as [-> | Hc].
    + rewrite split_lines_LF. constructor; [apply not_elem_of_nil | exact IH].
    + destruct (split_lines_cons c s Hc) as (line & rest & Hs & ->).
      rewrite Hs in IH. apply Forall_cons in IH as [Hline Hrest].
      constructor; [| exact Hrest].
      rewrite not_elem_of_cons. split; [congruence | exact Hline].
Qed.

(** X11. [MessageBubble] loses nothing of the text it is given: there is
    one paragraph more than there are line feeds in the text, no paragraph
    contains a line feed, and the paragraphs joined by line feeds are the
    text.  An empty text gives one empty paragraph. *)
Theorem paragraphs_are_the_lines
    (r : role) (children : jsstring) (error : option bool) :
  join_lines (paragraphs (MessageBubble r children error)) = children
  ∧ length (paragraphs (MessageBubble r children error))
    = S (length (filter (fun c => c = 10%N) children))
  ∧ Forall (fun line => 10%N ∉ line)
           (paragraphs (MessageBubble r children error))
  ∧ paragraphs (MessageBubble r [] error) = [[]].
Proof.
  split; [apply join_split_lines |].
  split; [apply length_split_lines |].
  split; [apply split_lines_no_LF | reflexivity].
Qed.

(** X12. The submit button is disabled exactly in the states in which
    [handleSubmit] would ignore the submission: a state in which the
    button is enabled always takes a submission, and one in which it is
    disabled never does.  It is disabled exactly when the draft is made of
    white space and line terminators only or a request is in flight. *)
Theorem button_disabled_iff_submit_ignored
    (s : state) (now_id now_ts : Z) :
  handleSubmit now_id now_ts s
  = (if button_disabled (App_render s)
     then (Normal None, s)
     else (Normal (Some (trim (question s))),
           mkState (theme s) [] true
             (messages s ++ [userMsg (trim (question s)) now_id now_ts])))
  ∧ button_disabled (App_render s)
    = forallb isTrimmed (question s) || isAsking s.
Proof.
  split.
  - simpl.
    destruct (handleSubmit_cases s now_id now_ts) as [[Hq Ha] | Hno].
    + rewrite handleSubmit_accept by assumption.
      apply truthy_nonempty in Hq. rewrite Hq, Ha. reflexivity.
    + rewrite handleSubmit_reject by assumption.
      destruct Hno as [-> | ->]; [reflexivity |].
      rewrite orb_true_r. reflexivity.
  - simpl. f_equal.
    destruct (forallb isTrimmed (question s)) eqn:Hblank.
    + apply trim_nil in Hblank. rewrite Hblank. reflexivity.
    + destruct (trim (question s)) eqn:Hq; [| reflexivity].
      apply trim_nil in Hq. congruence.
Qed.

(** X13. [App] renders one bubble per message, in the order of the
    conversation and keyed by the message id; the paragraphs of a bubble
    joined by line feeds are the content of its message, and the avatar is
    rendered exactly for assistant messages. *)
Theorem one_bubble_per_message (s : state) :
  length (bubbles (App_render s)) = length (messages s)
  ∧ ∀ (i : nat) (m : Msg.t),
      messages s !! i = Some m →
      ∃ b, bubbles (App_render s) !! i = Some (Msg.id m, b)
           ∧ join_lines (paragraphs b) = Msg.content m
           ∧ (avatar b = true ↔ Msg.role m = assistant).
Proof.
  split; [apply length_map |].
  intros i m Hi. eexists. split.
  - simpl. rewrite list_lookup_fmap, Hi. reflexivity.
  - split; [apply join_split_lines |].
    simpl. destruct (Msg.role m); simpl; split; (discriminate || reflexivity).
Qed.

(** X15. In every state reached from the first render, whatever the
    provider does, a rendered bubble has one of three looks: the user
    class without avatar; the assistant class with avatar; or the
    assistant and error classes with avatar, and then its text is the
    single paragraph of the apology.  The error class never comes with the
    user class. *)
Theorem bubbles_have_three_looks
    (P : provider) (t0 : Z) (tr : list event) (w : session)
    (key : jsstring) (b : bubble) :
  run P (initial_session t0) tr = Some w →
  (key, b) ∈ bubbles (App_render (ui w)) →
  (className b = lit "op-msg op-msg-user " ∧ avatar b = false)
  ∨ (className b = lit "op-msg op-msg-assistant " ∧ avatar b = true)
  ∨ (className b = lit "op-msg op-msg-assistant op-msg-error"
     ∧ avatar b = true ∧ paragraphs b = [apology]).
Proof.
  intros Hrun Hb. simpl in Hb.
  apply list_elem_of_fmap in Hb as (m & [= -> ->] & Hm).
  unfold MessageBubble.
  destruct (reachable_message_kind P t0 tr w m Hrun Hm)
    as [Hid Hr Hc He | t Hid Hr Hc He | t Hid Hr He | t Hid Hr Hc He];
    rewrite Hr, He; simpl.
  - right. left. split; reflexivity.
  - left. split; reflexivity.
  - right. left. split; reflexivity.
  - right. right. rewrite Hc. repeat split.
Qed.

(** ** The further properties on sample sessions *)

Lemma user_content_is_trimmed_draft_witness :
  ∃ (m : Msg.t) (lead trail : jsstring),
    last (messages (handleSubmit 5000 5001 (mkState light hello false [])).2)
      = Some m
    ∧ Msg.content m = lit "What is a closure?"
    ∧ hello = lead ++ lit "What is a closure?" ++ trail
    ∧ Forall (fun c => isTrimmed c = true) lead
    ∧ Forall (fun c => isTrimmed c = true) trail
    ∧ (∀ c, head (lit "What is a closure?") = Some c → isTrimmed c = false)
    ∧ (∀ c, last (lit "What is a closure?") = Some c → isTrimmed c = false)
    ∧ trim (lit "What is a closure?") = lit "What is a closure?".
Proof.
  apply (user_content_is_trimmed_draft
           (mkState light hello false []) _ _ 5000 5001).
  vm_compute. reflexivity.
Defined.

Lemma exchange_end_to_end_witness :
  run stub_provider (mkSession (mkState light hello false []) [])
      (Submit 5000 5001 :: map Change [lit "n"; lit "next"]
       ++ [Settle 0 (Fulfilled canned) 5900 5901])
  = Some (mkSession
            (mkState light (lit "next") false
               [userMsg (lit "What is a closure?") 5000 5001;
                aiMsg canned 5900 5901])
            []).
Proof.
  apply (exchange_end_to_end stub_provider
           (mkSession (mkState light hello false []) [])
           [lit "n"; lit "next"] (Fulfilled canned) 5000 5001 5900 5901).
  - vm_compute. discriminate.
  - reflexivity.
  - reflexivity.
  - vm_compute. reflexivity.
Defined.

Lemma resubmit_needs_typing_witness :
  run stub_provider (mkSession (mkState light hello false []) [])
      [Submit 5000 5001; Settle 0 (Fulfilled canned) 5900 5901;
       Submit 6000 6001]
  = run stub_provider (mkSession (mkState light hello false []) [])
      [Submit 5000 5001; Settle 0 (Fulfilled canned) 5900 5901].
Proof.
  apply (resubmit_needs_typing stub_provider
           (mkSession (mkState light hello false []) [])).
  reflexivity.
Defined.

Lemma messages_are_of_four_kinds_witness :
  ∃ w : session,
    run any_provider (initial_session 0) two_exchanges = Some w
    ∧ Forall message_kind (messages (ui w)).
Proof.
  eexists. split; [vm_compute; reflexivity |].
  apply (messages_are_of_four_kinds any_provider 0 two_exchanges).
  vm_compute. reflexivity.
Defined.

Lemma id_tells_role_and_error_witness :
  (Msg.role (errMsg 7003 7003) = user
   ↔ lit "u-" `prefix_of` Msg.id (errMsg 7003 7003))
  ∧ (Msg.is_error (errMsg 7003 7003) = true
     ↔ lit "e-" `prefix_of` Msg.id (errMsg 7003 7003))
  ∧ (Msg.is_error (errMsg 7003 7003) = true →
     Msg.role (errMsg 7003 7003) = assistant
     ∧ Msg.content (errMsg 7003 7003) = apology).
Proof.
  eapply (id_tells_role_and_error any_provider 0 two_exchanges).
  - vm_compute. reflexivity.
  - simpl. do 4 right. left.
Defined.

Lemma welcome_stays_first_witness :
  ∃ w : session,
    run any_provider (initial_session 42) two_exchanges = Some w
    ∧ head (messages (ui w))
      = Some (Msg.mk welcome_id assistant welcome_text 42 None).
Proof.
  eexists. split; [vm_compute; reflexivity |].
  apply (welcome_stays_first any_provider 42 two_exchanges).
  vm_compute. reflexivity.
Defined.

Lemma typing_iff_question_unanswered_witness :
  ∃ (w : session) (m : Msg.t),
    run stub_provider (initial_session 0) [Change hello; Submit 5000 5000]
      = Some w
    ∧ last (messages (ui w)) = Some m
    ∧ (typing (App_render (ui w)) = true ↔ Msg.role m = user).
Proof.
  eexists.
  destruct (typing_iff_question_unanswered stub_provider 0
              [Change hello; Submit 5000 5000] _ eq_refl) as (m & Hm).
  exists m. split; [reflexivity | exact Hm].
Defined.

Lemma stub_never_apologises_witness :
  ∃ w : session,
    run stub_provider (initial_session 0) one_exchange = Some w
    ∧ Forall (fun m => Msg.error m = None
                       ∧ (Msg.role m = assistant →
                          Msg.content m = welcome_text
                          ∨ Msg.content m = canned))
             (messages (ui w)).
Proof.
  eexists. split; [vm_compute; reflexivity |].
  apply (stub_never_apologises 0 one_exchange).
  vm_compute. reflexivity.
Defined.

Lemma bubbles_have_three_looks_witness :
  (className (MessageBubble assistant apology (Some true))
   = lit "op-msg op-msg-user "
   ∧ avatar (MessageBubble assistant apology (Some true)) = false)
  ∨ (className (MessageBubble assistant apology (Some true))
     = lit "op-msg op-msg-assistant "
     ∧ avatar (MessageBubble assistant apology (Some true)) = true)
  ∨ (className (MessageBubble assistant apology (Some true))
     = lit "op-msg op-msg-assistant op-msg-error"
     ∧ avatar (MessageBubble assistant apology (Some true)) = true
     ∧ paragraphs (MessageBubble assistant apology (Some true)) = [apology]).
Proof.
  eapply (bubbles_have_three_looks any_provider 0 two_exchanges _
            (lit "e-7003")).
  - vm_compute. reflexivity.
  - simpl. do 4 right. left.
Defined.

(** * The event loop with renders *)

(** ** [handleSubmit] of a render *)

Lemma handleSubmit_of_accept (shown s : state) (now_id now_ts : Z) :
  trim (question shown) ≠ [] →
  isAsking shown = false →
  handleSubmit_of shown now_id now_ts s =
    (Normal (Some (trim (question shown))),
     mkState (theme s) [] true
       (messages s ++ [userMsg (trim (question shown)) now_id now_ts])).
Proof.
  intros Hq Ha. apply truthy_nonempty in Hq.
  unfold handleSubmit_of. rewrite Hq, Ha. reflexivity.
Qed.

Lemma handleSubmit_of_reject (shown s : state) (now_id now_ts : Z) :
  trim (question shown) = [] ∨ isAsking shown = true →
  handleSubmit_of shown now_id now_ts s = (Normal None, s).
Proof.
  intros H. unfold handleSubmit_of.
  destruct H as [-> | ->]; simpl; [reflexivity |].
  rewrite orb_true_r. reflexivity.
Qed.


Section Live.

Variable P : provider.

(** What [live_step] returns, with the handlers evaluated. *)
Lemma live_step_inv (w w' : live) (t : tick) :
  live_step P w t = Some w' →
  match t with
  | Render => w' = mkLive (cells w) (cells w) (calls w)
  | Handle (Change text) =>
      w' = mkLive (shown w)
             (mkState (theme (cells w)) text (isAsking (cells w))
                (messages (cells w)))
             (calls w)
  | Handle ThemeClick =>
      w' = mkLive (shown w)
             (mkState light (question (cells w)) (isAsking (cells w))
                (messages (cells w)))
             (calls w)
  | Handle (Submit now_id now_ts) =>
      (trim (question (shown w)) ≠ [] ∧ isAsking (shown w) = false
       ∧ w' = mkLive (shown w)
                (mkState (theme (cells w)) [] true
                   (messages (cells w)
                    ++ [userMsg (trim (question (shown w))) now_id now_ts]))
                (calls w ++ [trim (question (shown w))]))
      ∨ ((trim (question (shown w)) = [] ∨ isAsking (shown w) = true)
         ∧ w' = w)
  | Handle (Settle k p now_id now_ts) =>
      ∃ q, calls w !! k = Some q ∧ P q p = true
           ∧ w' = mkLive (shown w)
                    (mkState (theme (cells w)) (question (cells w)) false
                       (messages (cells w) ++ [reply p now_id now_ts]))
                    (delete k (calls w))
  end.
Proof.
  destruct t as [| [text | now_id now_ts | k p now_id now_ts | ]]; simpl.
  - intros [= <-]. reflexivity.
  - intros [= <-]. reflexivity.
  - destruct (handleSubmit_cases (shown w) now_id now_ts) as [[Hq Ha] | Hno].
    + rewrite handleSubmit_of_accept by assumption. intros [= <-]. left. auto.
    + rewrite handleSubmit_of_reject by assumption. intros [= <-].
      right. split; [assumption | destruct w; reflexivity].
  - destruct (calls w !! k) as [q |]; [| discriminate].
    destruct (P q p) eqn:HP; [| discriminate].
    rewrite handleSubmit_resume_eq. intros [= <-]. eauto.
  - intros [= <-]. unfold toggleTheme, setTheme. simpl.
    destruct (decide (theme (cells w) = light)); reflexivity.
Qed.

(** Case analysis on [H : live_step P w t = Some w'], in the order: render,
    draft edit, accepted submission, ignored submission, settlement, theme
    click. *)
Ltac live_cases H t :=
  apply live_step_inv in H;
  destruct t as [| [text | now_id now_ts | k p now_id now_ts | ]];
  [ subst
  | subst
  | destruct H as [(Hq & Ha & ->) | [Hno ->]]
  | destruct H as (q & Hk & Hp & ->)
  | subst ].

Lemma live_run_invariant (I : live → Prop) :
  (∀ w t w', I w → live_step P w t = Some w' → I w') →
  ∀ tr w w', I w → live_run P w tr = Some w' → I w'.
Proof.
  intros Hstep tr. induction tr as [| t tr IH]; simpl; intros w w' Hw Hrun.
  - injection Hrun as <-. exact Hw.
  - destruct (live_step P w t) as [w1 |] eqn:Hd; [| discriminate].
    eapply IH; [| exact Hrun]. eapply Hstep; eassumption.
Qed.

(** ** The two loops *)



(** ** The in-flight gate *)

Lemma live_Submit_accept (w : live) (now_id now_ts : Z) :
  trim (question (shown w)) ≠ [] → isAsking (shown w) = false →
  live_step P w (Handle (Submit now_id now_ts))
  = Some (mkLive (shown w)
            (mkState (theme (cells w)) [] true
               (messages (cells w)
                ++ [userMsg (trim (question (shown w))) now_id now_ts]))
            (calls w ++ [trim (question (shown w))])).
Proof.
  intros Hq Ha. simpl. rewrite handleSubmit_of_accept by assumption.
  reflexivity.
Qed.

Lemma live_Submit_reject (w : live) (now_id now_ts : Z) :
  trim (question (shown w)) = [] ∨ isAsking (shown w) = true →
  live_step P w (Handle (Submit now_id now_ts)) = Some w.
Proof.
  intros H. simpl. rewrite handleSubmit_of_reject by assumption.
  destruct w; reflexivity.
Qed.

(** X3. The in-flight gate works from one render to the next.  With a
    render between them, the second of two submissions is ignored, in
    every state and whatever the clock reads.  Without one, the second
    handler still reads the draft and the flag of the render that took the
    first: when that render shows a draft that does not trim to the empty
    string and no request in flight, both submissions are taken, with two
    user messages of the same content and two calls to the provider. *)
Theorem double_submit_gated_by_render
    (w : live) (now_id now_ts now_id' now_ts' : Z) :
  live_run P w [Render; Handle (Submit now_id now_ts); Render;
                Handle (Submit now_id' now_ts')]
  = live_run P w [Render; Handle (Submit now_id now_ts); Render]
  ∧ (trim (question (shown w)) ≠ [] → isAsking (shown w) = false →
     live_run P w [Handle (Submit now_id now_ts);
                   Handle (Submit now_id' now_ts')]
     = Some (mkLive (shown w)
               (mkState (theme (cells w)) [] true
                  (messages (cells w)
                   ++ [userMsg (trim (question (shown w))) now_id now_ts;
                       userMsg (trim (question (shown w))) now_id' now_ts']))
               (calls w ++ [trim (question (shown w));
                            trim (question (shown w))]))).
Proof.
  split.
  - cbn [live_run]. change (live_step P w Render)
      with (Some (mkLive (cells w) (cells w) (calls w))). cbn iota.
    destruct (handleSubmit_cases (cells w) now_id now_ts) as [[Hq Ha] | Hno].
    + rewrite live_Submit_accept by assumption.
      change (live_step P ?x Render)
        with (Some (mkLive (cells x) (cells x) (calls x))). cbn iota.
      rewrite live_Submit_reject by (right; reflexivity). reflexivity.
    + rewrite live_Submit_reject by assumption.
      change (live_step P ?x Render)
        with (Some (mkLive (cells x) (cells x) (calls x))). cbn iota.
      rewrite live_Submit_reject by assumption. reflexivity.
  - intros Hq Ha. cbn [live_run].
    rewrite live_Submit_accept by assumption.
    rewrite live_Submit_accept by assumption. simpl.
    rewrite <- !(assoc_L (++)). reflexivity.
Qed.

(** With one submission per render, the flag counts the outstanding
    calls. *)
Lemma one_call_per_flag (tr : list tick) :
  ∀ (w w' : live) (fresh : bool),
    length (calls w) = (if isAsking (cells w) then 1 else 0)%nat →
    (fresh = true → isAsking (shown w) = false → isAsking (cells w) = false) →
    one_submit_per_render fresh tr = true →
    live_run P w tr = Some w' →
    length (calls w') = (if isAsking (cells w') then 1 else 0)%nat.
Proof.
  induction tr as [| t tr IH]; simpl; intros w w' fresh HJ HK Hfresh Hrun.
  - injection Hrun as <-. exact HJ.
  - destruct (live_step P w t) as [w1 |] eqn:Hd; [| discriminate].
    pose proof Hd as Hd'. apply live_step_inv in Hd'.
    destruct t as [| [text | now_id now_ts | k p now_id now_ts | ]].
    + subst w1. refine (IH _ w' _ _ _ Hfresh Hrun); auto.
    + subst w1. refine (IH _ w' _ _ _ Hfresh Hrun); auto.
    + apply andb_true_iff in Hfresh as [-> Hfresh].
      destruct Hd' as [(Hq & Ha & ->) | [Hno ->]];
        refine (IH _ w' _ _ _ Hfresh Hrun); try discriminate; [| exact HJ].
      simpl. rewrite length_app, HJ, (HK eq_refl Ha). reflexivity.
    + destruct Hd' as (q & Hk & _ & ->).
      refine (IH _ w' _ _ _ Hfresh Hrun); [| reflexivity].
      simpl. rewrite length_delete by eauto.
      apply lookup_lt_Some in Hk. rewrite HJ in Hk |- *.
      destruct (isAsking (cells w)); [reflexivity | lia].
    + subst w1. refine (IH _ w' _ _ _ Hfresh Hrun); auto.
Qed.

(** X4. In every state the component reaches, the in-flight flag is false
    once no call is outstanding: the form never stays blocked with nothing
    to wait for.  If moreover no two submissions were handled with the same
    render, there is exactly one outstanding call while the flag is true
    and none while it is false. *)
Theorem outstanding_calls_and_flag
    (t0 : Z) (tr : list tick) (w : live) :
  live_run P (live_initial t0) tr = Some w →
  (calls w = [] → isAsking (cells w) = false)
  ∧ (one_submit_per_render true tr = true →
     length (calls w) = (if isAsking (cells w) then 1 else 0)%nat).
Proof.
  intros Hrun. split.
  - revert Hrun.
    apply (live_run_invariant
             (fun x => calls x = [] → isAsking (cells x) = false));
      [| reflexivity].
    intros x t x' Hx Hd. live_cases Hd t; simpl; try exact Hx; auto.
    intros Hnil. apply app_eq_nil in Hnil as [_ Hnil]. discriminate.
  - intros Hfresh.
    apply (one_call_per_flag tr (live_initial t0) w true);
      [reflexivity | reflexivity | exact Hfresh | exact Hrun].
Qed.

(** X7. In every state the component reaches, each user message has
    either its one reply in the conversation or its one outstanding call:
    the length of the conversation plus the number of outstanding calls is
    twice the number of user messages, plus one for the welcome
    message. *)
Theorem every_question_has_reply_or_call
    (t0 : Z) (tr : list tick) (w : live) :
  live_run P (live_initial t0) tr = Some w →
  (length (messages (cells w)) + length (calls w)
   = 2 * questions_asked (messages (cells w)) + 1)%nat.
Proof.
  apply (live_run_invariant
           (fun x => (length (messages (cells x)) + length (calls x)
                      = 2 * questions_asked (messages (cells x)) + 1)%nat));
    [| reflexivity].
  intros x t x' Hx Hd. live_cases Hd t; simpl; try exact Hx.
  - rewrite !length_app, questions_asked_snoc. simpl. lia.
  - rewrite length_app, questions_asked_snoc, length_delete by eauto.
    apply lookup_lt_Some in Hk.
    destruct p; simpl; lia.
Qed.

(** ** Replies come after their questions *)

(** The question of every outstanding call is the content of a user
    message of the conversation. *)
Lemma calls_have_questions (t0 : Z) (tr : list tick) (w : live) :
  live_run P (live_initial t0) tr = Some w →
  Forall (fun q => ∃ m, m ∈ messages (cells w)
                        ∧ Msg.role m = user ∧ Msg.content m = q)
         (calls w).
Proof.
  apply (live_run_invariant
           (fun x => Forall (fun q => ∃ m, m ∈ messages (cells x)
                                          ∧ Msg.role m = user
                                          ∧ Msg.content m = q) (calls x)));
    [| constructor].
  intros x t x' Hx Hs. live_cases Hs t; simpl; try exact Hx.
  - apply Forall_app. split.
    + eapply Forall_impl; [exact Hx |].
      intros q (m & Hm & Hr & Hc). exists m.
      split; [apply elem_of_app; left; exact Hm | auto].
    + constructor; [| constructor]. eexists.
      split; [apply elem_of_app; right; left |]. split; reflexivity.
  - apply Forall_delete. eapply Forall_impl; [exact Hx |].
    intros q' (m & Hm & Hr & Hc). exists m.
    split; [apply elem_of_app; left; exact Hm | auto].
Qed.

(** X18. In every state the component reaches, whatever was submitted on
    stale renders and in whatever order the calls settle: when a call
    settles, the conversation already holds a user message whose content
    is the question of that call, and the reply, an assistant message, is
    appended at the end, after it. *)
Theorem reply_comes_after_its_question
    (t0 : Z) (tr : list tick) (w w' : live)
    (k : nat) (p : settled) (now_id now_ts : Z) :
  live_run P (live_initial t0) tr = Some w →
  live_step P w (Handle (Settle k p now_id now_ts)) = Some w' →
  ∃ (pre : list Msg.t) (u : Msg.t) (post : list Msg.t),
    messages (cells w) = pre ++ u :: post
    ∧ Msg.role u = user
    ∧ calls w !! k = Some (Msg.content u)
    ∧ messages (cells w') = pre ++ u :: post ++ [reply p now_id now_ts]
    ∧ Msg.role (reply p now_id now_ts) = assistant.
Proof.
  intros Hrun Hd.
  pose proof (calls_have_questions t0 tr w Hrun) as Hinv.
  apply live_step_inv in Hd. destruct Hd as (q & Hk & _ & ->).
  rewrite Forall_forall in Hinv.
  destruct (Hinv q) as (u & Hu & Hr & Hc);
    [apply list_elem_of_lookup; eauto |].
  apply list_elem_of_split in Hu as (pre & post & Hm).
  exists pre, u, post. simpl. rewrite Hm, Hc, <- (assoc_L (++)). simpl.
  repeat split; [exact Hr | exact Hk | destruct p; reflexivity].
Qed.

(** ** When ids are unique *)

Lemma stamp_id_inj (st st' : jsstring * Z) :
  st.1 ∈ id_prefixes → st'.1 ∈ id_prefixes →
  stamp_id st = stamp_id st' → st = st'.
Proof.
  destruct st as [pre t], st' as [pre' t']. unfold stamp_id. simpl.
  intros Hp Hp' H.
  apply app_inj_1 in H as [-> H];
    [| rewrite !id_prefix_length by assumption; reflexivity].
  apply Number_toString_inj in H. subst. reflexivity.
Qed.

(** The message a tick appends, if any, has the id of its stamp. *)
Lemma live_step_id (w w' : live) (t : tick) :
  live_step P w t = Some w' →
  match id_stamp w t with
  | None => messages (cells w') = messages (cells w)
  | Some st =>
      ∃ m, messages (cells w') = messages (cells w) ++ [m]
           ∧ st.1 ∈ id_prefixes
           ∧ Msg.id m = stamp_id st
  end.
Proof.
  intros Hd. pose proof (live_step_inv _ _ _ Hd) as Hi.
  destruct t as [| [text | now_id now_ts | k p now_id now_ts | ]]; simpl.
  - subst. reflexivity.
  - subst. reflexivity.
  - destruct Hi as [(Hq & Ha & ->) | [Hno ->]].
    + rewrite handleSubmit_of_accept by assumption.
      eexists. split; [reflexivity |]. split; [| reflexivity].
      unfold id_prefixes. left.
    + rewrite handleSubmit_of_reject by assumption. reflexivity.
  - destruct Hi as (q & -> & _ & ->).
    eexists. split; [reflexivity |].
    unfold id_prefixes. destruct p; (split; [| reflexivity]).
    + right. left.
    + do 2 right. left.
  - subst. reflexivity.
Qed.

Lemma ids_are_stamps (tr : list tick) :
  ∀ w w' : live,
    live_run P w tr = Some w' →
    map Msg.id (messages (cells w'))
    = map Msg.id (messages (cells w)) ++ map stamp_id (id_stamps P w tr)
    ∧ Forall (fun st => st.1 ∈ id_prefixes) (id_stamps P w tr).
Proof.
  induction tr as [| t tr IH]; simpl; intros w w' Hrun.
  - injection Hrun as <-. rewrite app_nil_r. split; [reflexivity | constructor].
  - destruct (live_step P w t) as [w1 |] eqn:Hd; [| discriminate].
    destruct (IH w1 w' Hrun) as [Hids Hpre].
    pose proof (live_step_id _ _ _ Hd) as Hid.
    destruct (id_stamp w t) as [st |].
    + destruct Hid as (m & Hm & Hst & Hidm).
      split; [| constructor; assumption].
      rewrite Hids, Hm, map_app. simpl.
      rewrite Hidm, <- (assoc_L (++)). reflexivity.
    + rewrite Hids, Hid. split; [reflexivity | exact Hpre].
Qed.

(** X19. Along every session of the component, the ids of the messages of
    the conversation are pairwise different exactly when no two messages
    with the same id prefix ([u-] for user messages, [a-] for answers, [e-]
    for apologies) were given the same reading of [Date.now()]. *)
Theorem ids_unique_iff_stamps_distinct
    (t0 : Z) (tr : list tick) (w : live) :
  live_run P (live_initial t0) tr = Some w →
  NoDup (map Msg.id (messages (cells w)))
  ↔ NoDup (id_stamps P (live_initial t0) tr).
Proof.
  intros Hrun. destruct (ids_are_stamps tr _ _ Hrun) as [Hids Hpre].
  rewrite Hids. simpl. rewrite NoDup_cons. split.
  - intros [_ Hnd]. exact (NoDup_fmap_1 stamp_id _ Hnd).
  - intros Hnd. split.
    + intros Hin. apply list_elem_of_fmap in Hin as (st & Hw & Hst).
      rewrite Forall_forall in Hpre.
      exact (generated_id_not_welcome _ _ (Hpre st Hst) (eq_sym Hw)).
    + apply NoDup_fmap_2_strong; [| exact Hnd].
      rewrite Forall_forall in Hpre.
      intros st st' Hst Hst'. apply stamp_id_inj; auto.
Qed.

End Live.

(** ** The event loop with renders on sample sessions *)

Lemma double_submit_gated_by_render_witness :
  live_run stub_provider
    (mkLive (mkState light hello false []) (mkState light hello false []) [])
    [Handle (Submit 5000 5000); Handle (Submit 5001 5001)]
  = Some (mkLive (mkState light hello false [])
            (mkState light [] true
               [userMsg (lit "What is a closure?") 5000 5000;
                userMsg (lit "What is a closure?") 5001 5001])
            [lit "What is a closure?"; lit "What is a closure?"]).
Proof.
  apply (proj2 (double_submit_gated_by_render stub_provider
                  (mkLive (mkState light hello false [])
                          (mkState light hello false []) [])
                  5000 5000 5001 5001)).
  - vm_compute. discriminate.
  - reflexivity.
Defined.

Lemma outstanding_calls_and_flag_witness :
  ∃ w : live,
    live_run any_provider (live_initial 0)
      (with_renders two_exchanges
       ++ [Handle (Change hello); Render; Handle (Submit 9000 9000)])
    = Some w
    ∧ one_submit_per_render true
        (with_renders two_exchanges
         ++ [Handle (Change hello); Render; Handle (Submit 9000 9000)])
      = true
    ∧ isAsking (cells w) = true
    ∧ length (calls w) = 1%nat.
Proof.
  eexists. split; [vm_compute; reflexivity |].
  split; [reflexivity |]. split; [reflexivity |].
  apply (outstanding_calls_and_flag any_provider 0
           (with_renders two_exchanges
            ++ [Handle (Change hello); Render; Handle (Submit 9000 9000)])).
  - vm_compute. reflexivity.
  - reflexivity.
Defined.

Lemma every_question_has_reply_or_call_witness :
  ∃ w : live,
    live_run any_provider (live_initial 0) (take 6 submitted_twice) = Some w
    ∧ length (messages (cells w)) = 4%nat
    ∧ length (calls w) = 1%nat
    ∧ questions_asked (messages (cells w)) = 2%nat
    ∧ isAsking (cells w) = false
    ∧ (length (messages (cells w)) + length (calls w)
       = 2 * questions_asked (messages (cells w)) + 1)%nat.
Proof.
  eexists. split; [vm_compute; reflexivity |].
  do 4 (split; [vm_compute; reflexivity |]).
  apply (every_question_has_reply_or_call any_provider 0
           (take 6 submitted_twice)).
  vm_compute. reflexivity.
Defined.

Lemma reply_comes_after_its_question_witness :
  ∃ w w' : live,
    live_run any_provider (live_initial 0) (take 5 submitted_twice) = Some w
    ∧ live_step any_provider w (Handle (Settle 1 (Fulfilled canned) 5901 5901))
      = Some w'
    ∧ ∃ (pre : list Msg.t) (u : Msg.t) (post : list Msg.t),
        messages (cells w) = pre ++ u :: post
        ∧ Msg.role u = user
        ∧ calls w !! 1%nat = Some (Msg.content u)
        ∧ messages (cells w') = pre ++ u :: post ++ [reply (Fulfilled canned) 5901 5901]
        ∧ Msg.role (reply (Fulfilled canned) 5901 5901) = assistant.
Proof.
  do 2 eexists. split; [vm_compute; reflexivity |].
  split; [vm_compute; reflexivity |].
  apply (reply_comes_after_its_question any_provider 0
           (take 5 submitted_twice) _ _ 1 (Fulfilled canned) 5901 5901).
  - vm_compute. reflexivity.
  - vm_compute. reflexivity.
Defined.

Lemma ids_unique_iff_stamps_distinct_witness :
  ∃ w : live,
    live_run any_provider (live_initial 0) submitted_twice = Some w
    ∧ NoDup (id_stamps any_provider (live_initial 0) submitted_twice)
    ∧ NoDup (map Msg.id (messages (cells w))).
Proof.
  eexists. split; [vm_compute; reflexivity |].
  assert (Hst : NoDup (id_stamps any_provider (live_initial 0) submitted_twice)).
  { apply (bool_decide_unpack _). vm_compute. exact I. }
  split; [exact Hst |].
  apply (ids_unique_iff_stamps_distinct any_provider 0 submitted_twice);
    [vm_compute; reflexivity | exact Hst].
Defined.
